(** * Counter App: the five counter components of [src/counter_app/app.js]

    The development embeds the state-transition core of the five React
    counter components and proves the properties the specification states
    about them.

    - JavaScript numbers are embedded twice.  [num] carries the counts as
      mathematical integers, and [NaN]: it is the arithmetic of the
      counters while no count leaves the range of 2^53, and the statements
      about the runs of a mounted component are made on it.
      [Double.number] carries the integer-valued doubles with their
      rounding, the infinities and NaN: the statements about arbitrary
      counts and arbitrary [data-change] attributes are made on it.  [-0]
      is identified with [0].
    - Strings are [string]; every character stands for one UTF-16 code unit
      below 256.
    - The state hooks follow the discipline the host framework documents
      (and the specification assumes): a handler queues an action, the next
      render applies the queued actions in order, each to the result of the
      previous one, and the handlers of a render see the state of that
      render.
    - Objects live in a heap ([gmap loc state]) where the identity of the
      object a function returns matters. *)

From Stdlib Require Import ZArith Ascii String List Lia.
From Stdlib Require DecimalString DecimalPos.
From stdpp Require Import base option gmap strings list.
Import ListNotations.

Local Open Scope string_scope.
Local Open Scope Z_scope.

(** ** JavaScript numbers *)

Module Num.

Inductive num : Type :=
| Int (z : Z)
| NaN.

(** [a + b] and [a - b] on numbers: [NaN] is absorbing. *)
Definition add (a b : num) : num :=
  match a, b with
  | Int x, Int y => Int (x + y)
  | _, _ => NaN
  end.

Definition sub (a b : num) : num :=
  match a, b with
  | Int x, Int y => Int (x - y)
  | _, _ => NaN
  end.

Definition is_integer (a : num) : bool :=
  match a with
  | Int _ => true
  | NaN => false
  end.

End Num.
Export Num.

(** ** The built-in [parseInt], called with one argument *)

Module ParseInt.

(** White space and line terminators among the code units below 256:
    TAB, LF, VT, FF, CR, SP and NBSP. *)
Definition is_white_space (c : ascii) : bool :=
  let n := nat_of_ascii c in
  match n with
  | 9 | 10 | 11 | 12 | 13 | 32 | 160 => true
  | _ => false
  end%nat.

Fixpoint trim_start (s : string) : string :=
  match s with
  | String c rest => if is_white_space c then trim_start rest else s
  | EmptyString => EmptyString
  end.

(** The value of a digit: ['0'..'9'], then the letters of either case
    from 10 on. *)
Definition digit_value (c : ascii) : option Z :=
  let n := Z.of_nat (nat_of_ascii c) in
  if (48 <=? n) && (n <=? 57) then Some (n - 48)
  else if (97 <=? n) && (n <=? 122) then Some (n - 97 + 10)
  else if (65 <=? n) && (n <=? 90) then Some (n - 65 + 10)
  else None.

Definition radix_digit (R : Z) (c : ascii) : option Z :=
  match digit_value c with
  | Some d => if d <? R then Some d else None
  | None => None
  end.

(** The longest prefix of radix-[R] digits, most significant first. *)
Fixpoint digit_prefix (R : Z) (s : string) : list Z :=
  match s with
  | String c rest =>
      match radix_digit R c with
      | Some d => d :: digit_prefix R rest
      | None => []
      end
  | EmptyString => []
  end.

Definition math_int (R : Z) (ds : list Z) : Z :=
  fold_left (fun acc d => acc * R + d) ds 0.

(** A leading ["0x"] or ["0X"] selects radix 16 and is removed. *)
Definition strip_prefix (s : string) : Z * string :=
  match s with
  | String "0"%char (String "x"%char rest) => (16, rest)
  | String "0"%char (String "X"%char rest) => (16, rest)
  | _ => (10, s)
  end.

Definition parseInt (input : string) : num :=
  let trimmed := trim_start input in
  let '(sign, unsigned) :=
    match trimmed with
    | String "-"%char rest => (-1, rest)
    | String "+"%char rest => (1, rest)
    | _ => (1, trimmed)
    end in
  let '(R, body) := strip_prefix unsigned in
  match digit_prefix R body with
  | [] => NaN
  | ds => Int (sign * math_int R ds)
  end.

End ParseInt.
Export ParseInt.

(** ** The state hooks of the host framework *)

Module Hooks.

(** What [setCount] is called with: the next value, or an updater that
    computes it from the latest state. *)
Inductive setStateAction : Type :=
| Value (next : num)
| Updater (f : num -> num).

(** How [useState] applies a queued action to the latest state. *)
Definition basicStateReducer (latest : num) (a : setStateAction) : num :=
  match a with
  | Value next => next
  | Updater f => f latest
  end.

(** The two controls of every counter, [decrement-button] and
    [increment-button]. *)
Inductive control : Type := Decrement | Increment.

(** A component with one state hook: the initial state, how the hook
    applies a queued action, the action the [onClick] handler of each
    control queues (as a function of the state its closure was created
    with), and the count the component displays. *)
Record component : Type := {
  St : Type;
  Action : Type;
  initial : St;
  apply : St -> Action -> St;
  onClick : control -> St -> Action;
  shown : St -> num
}.

(** A mounted instance: the state of the last render and the actions
    queued since. *)
Record instance (C : component) : Type := {
  rendered : St C;
  pending : list (Action C)
}.
Arguments rendered {C} _.
Arguments pending {C} _.

Inductive event : Type :=
| Click (c : control)
| Render.

(** The signed unit a control stands for. *)
Definition delta (c : control) : Z :=
  match c with
  | Decrement => -1
  | Increment => 1
  end.

Section Machine.
Variable C : component.

Definition mount : instance C :=
  {| rendered := initial C; pending := [] |}.

(** The state the next render commits. *)
Definition latest (i : instance C) : St C :=
  fold_left (apply C) (pending i) (rendered i).

Definition step (i : instance C) (e : event) : instance C :=
  match e with
  | Click c =>
      {| rendered := rendered i;
         pending := pending i ++ [onClick C c (rendered i)] |}
  | Render =>
      {| rendered := latest i; pending := [] |}
  end.

Definition run (es : list event) (i : instance C) : instance C :=
  fold_left step es i.

Definition displayed (i : instance C) : num := shown C (rendered i).

(** The count on display once everything queued has been rendered. *)
Definition final_count (es : list event) : num :=
  displayed (step (run es mount) Render).

(** One activation followed by its render. *)
Definition transition (c : control) (s : St C) : St C :=
  apply C s (onClick C c s).

(** A component follows the latest-state discipline when the action of
    either control moves the count on display by the control's unit,
    whatever state the handler's closure was created with. *)
Definition latest_discipline : Prop :=
  forall c captured s,
    shown C (apply C s (onClick C c captured)) = add (shown C s) (Int (delta c)).

(** Integer counts are kept when every handler created with an integer
    count queues an action that maps integer counts to integer counts. *)
Definition integer_state (s : St C) : Prop := is_integer (shown C s) = true.

Definition integer_preserving : Prop :=
  forall c captured s,
    integer_state captured -> integer_state s ->
    integer_state (apply C s (onClick C c captured)).

Definition integer_action (a : Action C) : Prop :=
  forall s, integer_state s -> integer_state (apply C s a).

End Machine.

Arguments mount : clear implicits.
Arguments latest {C} i.
Arguments step {C} i e.
Arguments run {C} es i.
Arguments displayed {C} i.

(** How often a control is activated in a sequence of events. *)
Fixpoint clicks (c : control) (es : list event) : Z :=
  match es with
  | [] => 0
  | Click Decrement :: es' =>
      (match c with Decrement => 1 | Increment => 0 end) + clicks c es'
  | Click Increment :: es' =>
      (match c with Decrement => 0 | Increment => 1 end) + clicks c es'
  | Render :: es' => clicks c es'
  end.

End Hooks.
Export Hooks.

(** ** The components of [app.js] *)

Definition BasicCounter : component := {|
  St := num;
  Action := setStateAction;
  initial := Int 0;
  apply := basicStateReducer;
  onClick := fun c count =>
    match c with
    | Decrement => Value (sub count (Int 1))
    | Increment => Value (add count (Int 1))
    end;
  shown := fun count => count
|}.

Definition FunctionalCounter : component := {|
  St := num;
  Action := setStateAction;
  initial := Int 0;
  apply := basicStateReducer;
  onClick := fun c _ =>
    match c with
    | Decrement => Updater (fun count => sub count (Int 1))
    | Increment => Updater (fun count => add count (Int 1))
    end;
  shown := fun count => count
|}.

(** The handlers [useCallback] keeps from the first render. *)
Definition decrease : setStateAction := Updater (fun count => sub count (Int 1)).
Definition increase : setStateAction := Updater (fun count => add count (Int 1)).

Definition CallbackCounter : component := {|
  St := num;
  Action := setStateAction;
  initial := Int 0;
  apply := basicStateReducer;
  onClick := fun c _ =>
    match c with
    | Decrement => decrease
    | Increment => increase
    end;
  shown := fun count => count
|}.

(** [a ?? b] on an attribute that is a string or undefined. *)
Definition nullish_or (a : option string) (b : string) : string :=
  match a with
  | Some s => s
  | None => b
  end.

(** The shared handler, given [e.currentTarget.dataset.change]. *)
Definition update (dataset_change : option string) : setStateAction :=
  let change := parseInt (nullish_or dataset_change "0") in
  Updater (fun count => add count change).

(** The [data-change] attribute of each control. *)
Definition data_change (c : control) : option string :=
  match c with
  | Decrement => Some "-1"
  | Increment => Some "1"
  end.

Definition DataAttributeCounter : component := {|
  St := num;
  Action := setStateAction;
  initial := Int 0;
  apply := basicStateReducer;
  onClick := fun c _ => update (data_change c);
  shown := fun count => count
|}.

(** *** The reducer *)

(** The values a property such as [action.type] can hold. *)
Inductive value : Type :=
| VUndefined
| VNull
| VBoolean (b : bool)
| VNumber (n : num)
| VString (s : string).

Record action : Type := { type : value }.

#[global] Instance num_eq_dec : EqDecision num.
Proof. solve_decision. Defined.

#[global] Instance value_eq_dec : EqDecision value.
Proof. solve_decision. Defined.

Record state : Type := { count : num }.

Definition initialState : state := {| count := Int 0 |}.

Definition reducer (s : state) (a : action) : state :=
  match type a with
  | VString t =>
      if String.eqb t "increment" then {| count := add (count s) (Int 1) |}
      else if String.eqb t "decrement" then {| count := sub (count s) (Int 1) |}
      else s
  | _ => s
  end.

Definition ReducerCounter : component := {|
  St := state;
  Action := action;
  initial := initialState;
  apply := reducer;
  onClick := fun c _ =>
    match c with
    | Decrement => {| type := VString "decrement" |}
    | Increment => {| type := VString "increment" |}
    end;
  shown := count
|}.

Inductive variant : Type :=
| Basic
| Functional
| Callback
| DataAttribute
| Reducer.

Definition component_of (v : variant) : component :=
  match v with
  | Basic => BasicCounter
  | Functional => FunctionalCounter
  | Callback => CallbackCounter
  | DataAttribute => DataAttributeCounter
  | Reducer => ReducerCounter
  end.

(** The variants whose handlers queue a function of the latest state. *)
Definition latest_state (v : variant) : bool :=
  match v with
  | Basic => false
  | _ => true
  end.

(** *** The reducer on objects in a heap

    [reducer] above reads the objects by value.  Here a state is a
    reference into a heap of objects, an object literal allocates, and
    reading a property of a reference that holds no object is a TypeError
    ([None]). *)

Definition loc : Type := positive.

Definition alloc (h : gmap positive state) (o : state) : gmap positive state * loc :=
  let l := fresh (dom h) in (<[l := o]> h, l).

Definition reducer_heap (h : gmap positive state) (st : loc) (a : action)
  : option (gmap positive state * loc) :=
  match type a with
  | VString t =>
      if String.eqb t "increment" then
        s ← h !! st; Some (alloc h {| count := add (count s) (Int 1) |})
      else if String.eqb t "decrement" then
        s ← h !! st; Some (alloc h {| count := sub (count s) (Int 1) |})
      else Some (h, st)
  | _ => Some (h, st)
  end.

(** ** The components on doubles

    The counts above are mathematical integers.  The numbers of the
    language are doubles: the integers up to 2^53 in magnitude are all
    doubles and sums within that range are exact, beyond it a sum is
    rounded to the nearest double (ties to the even significand) and from
    2^1024 on it overflows to an infinity.  This module gives the handlers
    and the reducer with that arithmetic, on the integer-valued doubles,
    the infinities and NaN; [-0] is identified with [0]. *)

Module Double.

(** [Fin z] stands for the double whose value is the integer [z]; it is a
    double when [round z = Fin z]. *)
Inductive number : Type :=
| Fin (z : Z)
| PosInf
| NegInf
| NotANumber.

(** 2^53: up to here every integer is a double. *)
Definition exact_bound : Z := 9007199254740992.

(** 2^1024: the first magnitude that is rounded to an infinity. *)
Definition overflow_bound : Z := 2 ^ 1024.

(** The double nearest to the integer [z]. *)
Definition round (z : Z) : number :=
  let a := Z.abs z in
  if a <=? exact_bound then Fin z
  else
    let e := Z.log2 a - 52 in
    let q := a / 2 ^ e in
    let r := a mod 2 ^ e in
    let half := 2 ^ (e - 1) in
    let m :=
      if r <? half then q
      else if half <? r then q + 1
      else if Z.even q then q else q + 1 in
    let magnitude := m * 2 ^ e in
    if overflow_bound <=? magnitude then (if z <? 0 then NegInf else PosInf)
    else Fin (Z.sgn z * magnitude).

(** [a + b] and [a - b] on doubles. *)
Definition add (a b : number) : number :=
  match a, b with
  | NotANumber, _ | _, NotANumber => NotANumber
  | Fin x, Fin y => round (x + y)
  | PosInf, NegInf | NegInf, PosInf => NotANumber
  | PosInf, _ | _, PosInf => PosInf
  | NegInf, _ | _, NegInf => NegInf
  end.

Definition sub (a b : number) : number :=
  match a, b with
  | NotANumber, _ | _, NotANumber => NotANumber
  | Fin x, Fin y => round (x - y)
  | PosInf, PosInf | NegInf, NegInf => NotANumber
  | PosInf, _ | _, NegInf => PosInf
  | NegInf, _ | _, PosInf => NegInf
  end.

Definition is_integer (a : number) : bool :=
  match a with
  | Fin _ => true
  | _ => false
  end.

(** [parseInt] returns the double nearest to the integer it reads. *)
Definition parseInt (input : string) : number :=
  match ParseInt.parseInt input with
  | Int z => round z
  | NaN => NotANumber
  end.

Inductive setStateAction : Type :=
| Value (next : number)
| Updater (f : number -> number).

Definition basicStateReducer (latest : number) (a : setStateAction) : number :=
  match a with
  | Value next => next
  | Updater f => f latest
  end.

(** The [onClick] handlers of BasicCounter, created with [count]. *)
Definition BasicCounter_onClick (c : control) (count : number) : setStateAction :=
  match c with
  | Decrement => Value (sub count (Fin 1))
  | Increment => Value (add count (Fin 1))
  end.

Definition FunctionalCounter_onClick (c : control) : setStateAction :=
  match c with
  | Decrement => Updater (fun count => sub count (Fin 1))
  | Increment => Updater (fun count => add count (Fin 1))
  end.

Definition decrease : setStateAction := Updater (fun count => sub count (Fin 1)).
Definition increase : setStateAction := Updater (fun count => add count (Fin 1)).

Definition CallbackCounter_onClick (c : control) : setStateAction :=
  match c with
  | Decrement => decrease
  | Increment => increase
  end.

Definition update (dataset_change : option string) : setStateAction :=
  let change := parseInt (nullish_or dataset_change "0") in
  Updater (fun count => add count change).

Definition DataAttributeCounter_onClick (c : control) : setStateAction :=
  update (data_change c).

Record state : Type := { count : number }.

Definition initialState : state := {| count := Fin 0 |}.

Definition reducer (s : state) (a : action) : state :=
  match type a with
  | VString t =>
      if String.eqb t "increment" then {| count := add (count s) (Fin 1) |}
      else if String.eqb t "decrement" then {| count := sub (count s) (Fin 1) |}
      else s
  | _ => s
  end.

Definition ReducerCounter_onClick (c : control) : action :=
  match c with
  | Decrement => {| type := VString "decrement" |}
  | Increment => {| type := VString "increment" |}
  end.

(** A count of the exact integers as a double. *)
Definition of_num (n : num) : number :=
  match n with
  | Int z => Fin z
  | NaN => NotANumber
  end.

(** The count of a variant after one activation of [c] and its render,
    from the count [n] of the last render. *)
Definition transition (v : variant) (c : control) (n : number) : number :=
  match v with
  | Basic => basicStateReducer n (BasicCounter_onClick c n)
  | Functional => basicStateReducer n (FunctionalCounter_onClick c)
  | Callback => basicStateReducer n (CallbackCounter_onClick c)
  | DataAttribute => basicStateReducer n (DataAttributeCounter_onClick c)
  | Reducer => count (reducer {| count := n |} (ReducerCounter_onClick c))
  end.

End Double.

(** ** Vocabulary of the statements *)

(** The decimal numeral of an integer, as a [data-change] attribute may
    hold it. *)
Definition decimal_numeral (z : Z) : string :=
  DecimalString.NilZero.string_of_int (Z.to_int z).

(** What may follow a decimal numeral for [parseInt] to read exactly that
    numeral: no further decimal digit, and no [x] or [X] after a lone
    ["0"]. *)
Definition no_decimal_head (rest : string) : Prop :=
  match rest with
  | String c _ => radix_digit 10 c = None
  | EmptyString => True
  end.

Definition no_x_head (rest : string) : Prop :=
  match rest with
  | String c _ => c <> "x"%char /\ c <> "X"%char
  | EmptyString => True
  end.

(** The steps of [parseInt] after the white space and the sign. *)
Definition parse_unsigned (sign : Z) (unsigned : string) : num :=
  let '(R, body) := strip_prefix unsigned in
  match digit_prefix R body with
  | [] => NaN
  | ds => Int (sign * math_int R ds)
  end.

(** The digits of a decimal numeral, most significant first. *)
Fixpoint uint_digits (d : Decimal.uint) : list Z :=
  match d with
  | Decimal.Nil => []
  | Decimal.D0 d' => 0 :: uint_digits d'
  | Decimal.D1 d' => 1 :: uint_digits d'
  | Decimal.D2 d' => 2 :: uint_digits d'
  | Decimal.D3 d' => 3 :: uint_digits d'
  | Decimal.D4 d' => 4 :: uint_digits d'
  | Decimal.D5 d' => 5 :: uint_digits d'
  | Decimal.D6 d' => 6 :: uint_digits d'
  | Decimal.D7 d' => 7 :: uint_digits d'
  | Decimal.D8 d' => 8 :: uint_digits d'
  | Decimal.D9 d' => 9 :: uint_digits d'
  end.

(** How many actions of a sequence have the discriminant [t]. *)
Fixpoint dispatched (t : string) (acts : list action) : Z :=
  match acts with
  | [] => 0
  | a :: acts' =>
      (if decide (type a = VString t) then 1 else 0) + dispatched t acts'
  end.

(** A count between two bounds, as a queued [setCount] value. *)
Definition value_within (lo hi : Z) (a : setStateAction) : Prop :=
  exists x, a = Value (Int x) /\ lo <= x <= hi.

Definition counts_within (lo hi : Z) (i : instance BasicCounter) : Prop :=
  (exists r, rendered i = Int r /\ lo <= r <= hi)
  /\ Forall (value_within lo hi) (pending i).

(** * Properties *)

(** ** Numbers *)

Lemma add_zero_r a : add a (Int 0) = a.
Proof. destruct a as [x|]; simpl; [f_equal; lia | reflexivity]. Qed.

Lemma add_NaN_r a : add a NaN = NaN.
Proof. now destruct a. Qed.

Lemma add_add_Int a x y : add (add a (Int x)) (Int y) = add a (Int (x + y)).
Proof. destruct a; simpl; [f_equal; lia | reflexivity]. Qed.

(** ** The hook machine *)

Section MachineFacts.
Variable C : component.
Implicit Types (i : instance C) (es : list event).

Lemma latest_click i c :
  latest (step i (Click c)) = apply C (latest i) (onClick C c (rendered i)).
Proof. unfold latest; simpl. now rewrite fold_left_app. Qed.

Lemma latest_render i : latest (step i Render) = latest i.
Proof. reflexivity. Qed.

Lemma run_cons e es i : run (e :: es) i = run es (step i e).
Proof. reflexivity. Qed.

Lemma final_count_latest es :
  final_count C es = shown C (latest (run es (mount C))).
Proof. reflexivity. Qed.

Lemma clicks_net c es :
  clicks Increment (Click c :: es) - clicks Decrement (Click c :: es)
  = delta c + (clicks Increment es - clicks Decrement es).
Proof. destruct c; simpl; lia. Qed.

Lemma discipline_run :
  latest_discipline C ->
  forall es i,
    shown C (latest (run es i))
    = add (shown C (latest i)) (Int (clicks Increment es - clicks Decrement es)).
Proof.
  intros HD es; induction es as [|e es IH]; intros i.
  - simpl. now rewrite add_zero_r.
  - rewrite run_cons, IH. destruct e as [c|].
    + rewrite latest_click, HD, add_add_Int, clicks_net. reflexivity.
    + rewrite latest_render. reflexivity.
Qed.

Lemma integer_fold (q : list (Action C)) :
  Forall (integer_action C) q ->
  forall s, integer_state C s -> integer_state C (fold_left (apply C) q s).
Proof.
  induction 1 as [|a q Ha _ IH]; intros s Hs; simpl; [exact Hs|].
  apply IH, Ha, Hs.
Qed.

Lemma integer_run :
  integer_preserving C ->
  forall es i,
    integer_state C (rendered i) -> Forall (integer_action C) (pending i) ->
    integer_state C (rendered (run es i))
    /\ Forall (integer_action C) (pending (run es i)).
Proof.
  intros HP es; induction es as [|e es IH]; intros i Hr Hq; [now split|].
  rewrite run_cons. destruct e as [c|]; apply IH; simpl.
  - exact Hr.
  - apply Forall_app; split; [exact Hq|].
    constructor; [|constructor]. intros s Hs. now apply HP.
  - now apply integer_fold.
  - constructor.
Qed.

End MachineFacts.

Lemma latest_state_discipline v :
  latest_state v = true -> latest_discipline (component_of v).
Proof.
  destruct v; simpl; intros Hv; try discriminate;
    intros [|] captured s; simpl.
  all: try (destruct s as [z|]; reflexivity).
  all: destruct s as [[z|]]; reflexivity.
Qed.

Lemma every_variant_integer_preserving v :
  integer_preserving (component_of v).
Proof.
  destruct v; intros [|] captured s; unfold integer_state; simpl.
  all: try (destruct captured as [x|], s as [y|]; simpl; congruence).
  all: destruct s as [[y|]]; simpl; congruence.
Qed.

Lemma mount_integer v :
  integer_state (component_of v) (rendered (mount (component_of v))).
Proof. destruct v; reflexivity. Qed.

(** ** Counting with the latest state *)

(** C1. For FunctionalCounter, CallbackCounter, DataAttributeCounter (through
    its two controls) and ReducerCounter, mounted with count 0, every
    sequence of events with N activations of "increment" and M activations
    of "decrement", in any order and with re-renders anywhere in between,
    ends with the count N - M. *)
Theorem latest_state_final_count (v : variant) (es : list event) :
  latest_state v = true ->
  final_count (component_of v) es
  = Int (clicks Increment es - clicks Decrement es).
Proof.
  intros Hv. rewrite final_count_latest.
  rewrite (discipline_run _ (latest_state_discipline v Hv)).
  destruct v; try discriminate; reflexivity.
Qed.

Lemma latest_state_final_count_witness :
  latest_state Reducer = true
  /\ final_count ReducerCounter
       [Click Increment; Click Decrement; Click Increment; Render; Click Increment]
     = Int 2.
Proof.
  split; [reflexivity|].
  exact (latest_state_final_count Reducer
           [Click Increment; Click Decrement; Click Increment; Render; Click Increment]
           eq_refl).
Defined.

(** ** The stale closure of BasicCounter *)

(** C2. In BasicCounter, two activations of "increment" whose handlers come
    from the same render, with no re-render in between, leave the count one
    above the count of that render, not two. *)
Theorem BasicCounter_same_closure_twice (n : Z) :
  let i := Build_instance BasicCounter (Int n) [] in
  displayed (run [Click Increment; Click Increment; Render] i) = Int (n + 1)
  /\ displayed (run [Click Increment; Click Increment; Render] i) <> Int (n + 2).
Proof.
  simpl. unfold displayed; simpl. split; [reflexivity|].
  intros H; injection H; lia.
Qed.

(** ** The shared handler of DataAttributeCounter *)

(** The claim C3 states fails for a [data-change] that holds no integer:
    [parseInt] returns NaN and the count becomes NaN. *)
Lemma update_non_numeric_delta :
  parseInt "abc" = NaN
  /\ basicStateReducer (Int 0) (update (Some "abc")) = NaN
  /\ basicStateReducer (Int 0) (update (Some "abc")) <> Int 0.
Proof. repeat split; try reflexivity. discriminate. Qed.

(** C3, amended. In DataAttributeCounter an activation whose control has no
    [data-change] attribute applies the delta 0 and leaves the count
    unchanged; a [data-change] that [parseInt] cannot read gives the delta
    NaN, and the count becomes NaN. *)
Theorem update_absent_or_unreadable (count : num) :
  basicStateReducer count (update None) = count
  /\ forall s, parseInt s = NaN ->
       basicStateReducer count (update (Some s)) = NaN.
Proof.
  split.
  - simpl. apply add_zero_r.
  - intros s Hs. simpl. rewrite Hs. apply add_NaN_r.
Qed.

Lemma update_absent_or_unreadable_witness :
  basicStateReducer (Int 7) (update None) = Int 7
  /\ parseInt "" = NaN
  /\ basicStateReducer (Int 7) (update (Some "")) = NaN.
Proof.
  destruct (update_absent_or_unreadable (Int 7)) as [Habsent Hnan].
  split; [exact Habsent|].
  split; [reflexivity|].
  apply Hnan. reflexivity.
Defined.

(** ** The reducer *)

(** The three branches of the [switch]. *)
Lemma reducer_default (s : state) (a : action) :
  type a <> VString "increment" ->
  type a <> VString "decrement" ->
  reducer s a = s
  /\ forall h st, reducer_heap h st a = Some (h, st).
Proof.
  intros Hi Hd. unfold reducer, reducer_heap.
  destruct (type a) as [| |b|n|t]; try (split; reflexivity).
  destruct (String.eqb_spec t "increment") as [->|_]; [congruence|].
  destruct (String.eqb_spec t "decrement") as [->|_]; [congruence|].
  split; reflexivity.
Qed.

Lemma reducer_on_increment (s : state) (a : action) :
  type a = VString "increment" ->
  reducer s a = {| count := add (count s) (Int 1) |}
  /\ forall h st,
       reducer_heap h st a
       = (o ← h !! st; Some (alloc h {| count := add (count o) (Int 1) |})).
Proof. intros Hi. unfold reducer, reducer_heap. rewrite Hi. split; reflexivity. Qed.

Lemma reducer_on_decrement (s : state) (a : action) :
  type a = VString "decrement" ->
  reducer s a = {| count := sub (count s) (Int 1) |}
  /\ forall h st,
       reducer_heap h st a
       = (o ← h !! st; Some (alloc h {| count := sub (count o) (Int 1) |})).
Proof. intros Hd. unfold reducer, reducer_heap. rewrite Hd. split; reflexivity. Qed.

(** C4. For every state and every action whose [type] is neither
    'increment' nor 'decrement', the reducer returns the state it was given;
    on the heap it returns the reference it was given and never raises,
    even where it was given no object. *)
Theorem reducer_unknown_action (s : state) (a : action) :
  type a <> VString "increment" ->
  type a <> VString "decrement" ->
  reducer s a = s
  /\ forall h st, reducer_heap h st a = Some (h, st).
Proof.
  intros Hi Hd. destruct (reducer_default s a Hi Hd) as [Hvalue Hheap].
  split; [exact Hvalue | exact Hheap].
Qed.

Lemma reducer_unknown_action_witness :
  reducer {| count := Int 4 |} {| type := VString "reset" |} = {| count := Int 4 |}
  /\ reducer_heap ∅ 1%positive {| type := VString "reset" |} = Some (∅, 1%positive).
Proof.
  assert (Hi : type {| type := VString "reset" |} <> VString "increment")
    by discriminate.
  assert (Hd : type {| type := VString "reset" |} <> VString "decrement")
    by discriminate.
  destruct (reducer_unknown_action {| count := Int 4 |} _ Hi Hd) as [Hs Hh].
  split; [exact Hs | apply Hh].
Defined.

(** ** The count is an integer *)

(** The claim C6 states fails in its second part: the handler does not put
    0 in place of a [data-change] that holds no integer, and an integer
    count becomes NaN. *)
Lemma update_non_numeric_not_integer :
  is_integer (Int 3) = true
  /\ parseInt "one" = NaN
  /\ is_integer (basicStateReducer (Int 3) (update (Some "one"))) = false.
Proof. repeat split; reflexivity. Qed.

(** ** CallbackCounter and FunctionalCounter *)

(** C7. The updaters CallbackCounter queues are those of FunctionalCounter:
    for either control and every latest count they give the same next
    count, whatever renders the handlers come from; the two components
    therefore end every sequence of events with the same count. *)
Theorem CallbackCounter_as_FunctionalCounter :
  (forall c captured captured' count,
      apply CallbackCounter count (onClick CallbackCounter c captured)
      = apply FunctionalCounter count (onClick FunctionalCounter c captured'))
  /\ (forall es, final_count CallbackCounter es = final_count FunctionalCounter es).
Proof.
  split.
  - intros [|] captured captured' count; reflexivity.
  - intros es. rewrite !final_count_latest.
    rewrite (discipline_run _ (latest_state_discipline Callback eq_refl)).
    rewrite (discipline_run _ (latest_state_discipline Functional eq_refl)).
    reflexivity.
Qed.

(** ** The reducer leaves its argument alone *)

Section Heap.
Implicit Types (h : gmap positive state) (l : loc) (o : state).

Lemma alloc_fresh h o : h !! (alloc h o).2 = None.
Proof. apply not_elem_of_dom, is_fresh. Qed.

Lemma alloc_lookup h o : (alloc h o).1 !! (alloc h o).2 = Some o.
Proof. apply lookup_insert_eq. Qed.

Lemma alloc_frame h o l o' :
  h !! l = Some o' -> (alloc h o).1 !! l = Some o'.
Proof.
  intros Hl. unfold alloc; simpl. rewrite lookup_insert_ne; [exact Hl|].
  intros Heq. pose proof (alloc_fresh h o) as Hf. simpl in Hf.
  rewrite Heq in Hf. congruence.
Qed.

(** On a reference that holds an object, [reducer_heap] returns a
    reference to the state [reducer] computes from that object. *)
Lemma reducer_heap_value h l o a :
  h !! l = Some o ->
  exists h' l', reducer_heap h l a = Some (h', l')
                /\ h' !! l' = Some (reducer o a).
Proof.
  intros Hl. unfold reducer_heap, reducer.
  destruct (type a) as [| |b|n|t]; try (exists h, l; split; [reflexivity | exact Hl]).
  destruct (String.eqb t "increment").
  { rewrite Hl; simpl. eexists _, _. split; [reflexivity | apply lookup_insert_eq]. }
  destruct (String.eqb t "decrement").
  { rewrite Hl; simpl. eexists _, _. split; [reflexivity | apply lookup_insert_eq]. }
  exists h, l; split; [reflexivity | exact Hl].
Qed.

End Heap.

(** What a freshly allocated result means for the objects that existed
    before. *)
Ltac fresh_object Hvalue :=
  match goal with
  | Hst : ?h !! ?st = Some ?s |- context [alloc ?h ?o] =>
      pose proof (alloc_fresh h o) as Hfresh;
      split; [now apply alloc_frame|];
      split; [intros ? ?; apply alloc_frame|];
      split; [rewrite Hvalue; apply alloc_lookup|];
      split; [intros _; split; [exact Hfresh | congruence] | contradiction]
  end.

(** C10. The reducer does not change the state object it is given, nor any
    other object: for 'increment' and 'decrement' it returns a reference to
    an object that did not exist before, holding the new count; for any
    other action it returns the very reference it was given and the heap
    as it was. *)
Theorem reducer_heap_frame
    (h : gmap positive state) (st : loc) (s : state) (a : action) :
  h !! st = Some s ->
  exists h' st',
    reducer_heap h st a = Some (h', st')
    /\ h' !! st = Some s
    /\ (forall l o, h !! l = Some o -> h' !! l = Some o)
    /\ h' !! st' = Some (reducer s a)
    /\ (type a = VString "increment" \/ type a = VString "decrement" ->
        h !! st' = None /\ st' <> st)
    /\ (type a <> VString "increment" -> type a <> VString "decrement" ->
        st' = st /\ h' = h).
Proof.
  intros Hst.
  destruct (decide (type a = VString "increment")) as [Hi|Hi].
  { destruct (reducer_on_increment s a Hi) as [Hv Hh].
    exists (alloc h {| count := add (count s) (Int 1) |}).1,
           (alloc h {| count := add (count s) (Int 1) |}).2.
    split; [rewrite Hh, Hst; reflexivity|]. fresh_object Hv. }
  destruct (decide (type a = VString "decrement")) as [Hd|Hd].
  { destruct (reducer_on_decrement s a Hd) as [Hv Hh].
    exists (alloc h {| count := sub (count s) (Int 1) |}).1,
           (alloc h {| count := sub (count s) (Int 1) |}).2.
    split; [rewrite Hh, Hst; reflexivity|]. fresh_object Hv. }
  destruct (reducer_default s a Hi Hd) as [Hv Hh].
  exists h, st. rewrite Hv.
  split; [apply Hh|]. split; [exact Hst|]. split; [auto|]. split; [exact Hst|].
  split; [intros [Hi'|Hd']; contradiction | auto].
Qed.

Lemma reducer_heap_frame_witness :
  let h : gmap positive state := {[ 1%positive := initialState ]} in
  h !! 1%positive = Some initialState
  /\ exists h' st',
       reducer_heap h 1%positive {| type := VString "increment" |} = Some (h', st')
       /\ h' !! 1%positive = Some initialState
       /\ h' !! st' = Some {| count := Int 1 |}
       /\ st' <> 1%positive.
Proof.
  intros h.
  assert (Hst : h !! 1%positive = Some initialState) by reflexivity.
  split; [exact Hst|].
  destruct (reducer_heap_frame h 1%positive initialState
              {| type := VString "increment" |} Hst)
    as (h' & st' & Hred & Hin & _ & Hout & Hnew & _).
  exists h', st'. split; [exact Hred|]. split; [exact Hin|].
  split; [exact Hout|]. apply Hnew. left; reflexivity.
Defined.

(** * Further properties of the components *)

(** ** Sequences of events *)

Section RunFacts.
Variable C : component.
Implicit Types (i : instance C) (es : list event).

Lemma run_app es1 es2 i : run (es1 ++ es2) i = run es2 (run es1 i).
Proof. apply fold_left_app. Qed.

(** Clicks alone only extend the queue, each with the action its handler
    makes of the state of the last render. *)
Lemma run_clicks (cs : list control) i :
  run (map Click cs) i
  = {| rendered := rendered i;
       pending := pending i ++ map (fun c => onClick C c (rendered i)) cs |}.
Proof.
  revert i; induction cs as [|c cs IH]; intros [r q]; cbn [map].
  - simpl. now rewrite app_nil_r.
  - rewrite run_cons, IH; simpl. now rewrite <- app_assoc.
Qed.

(** A property of the state that every queued action keeps, whenever the
    handler that queued it was created with a state that has it, holds
    after every sequence of events. *)
Variable P : St C -> Prop.

Hypothesis P_kept :
  forall c captured s, P captured -> P s -> P (apply C s (onClick C c captured)).

Lemma kept_fold (q : list (Action C)) :
  Forall (fun a => forall s, P s -> P (apply C s a)) q ->
  forall s, P s -> P (fold_left (apply C) q s).
Proof.
  induction 1 as [|a q Ha _ IH]; intros s Hs; simpl; [exact Hs|].
  apply IH, Ha, Hs.
Qed.

Lemma kept_run es i :
  P (rendered i) ->
  Forall (fun a => forall s, P s -> P (apply C s a)) (pending i) ->
  P (rendered (run es i)) /\ P (latest (run es i)).
Proof.
  revert i; induction es as [|e es IH]; intros i Hr Hq.
  - split; [exact Hr | now apply kept_fold].
  - rewrite run_cons. destruct e as [c|]; apply IH; simpl.
    + exact Hr.
    + apply Forall_app; split; [exact Hq|].
      constructor; [|constructor]. intros s Hs. now apply P_kept.
    + now apply kept_fold.
    + constructor.
Qed.

End RunFacts.

(** ** BasicCounter between two renders *)

(** X2. In BasicCounter, of the clicks queued between two renders only the
    last one counts: after any number of clicks followed by a click on [c]
    and a render, the count is the count of the previous render plus or
    minus one, as [c] says. *)
Theorem BasicCounter_last_click_wins (n : Z) (cs : list control) (c : control) :
  displayed (run (map Click (cs ++ [c]) ++ [Render])
               (Build_instance BasicCounter (Int n) []))
  = Int (n + delta c).
Proof.
  rewrite run_app, run_clicks. unfold displayed; simpl.
  unfold latest; simpl. rewrite map_app, fold_left_app. simpl.
  destruct c; simpl; f_equal; lia.
Qed.

Lemma clicks_nonneg c es : 0 <= clicks c es.
Proof.
  induction es as [|[[|]|] es IH]; simpl; destruct c; lia.
Qed.

Lemma value_within_mono lo hi lo' hi' a :
  lo' <= lo -> hi <= hi' -> value_within lo hi a -> value_within lo' hi' a.
Proof. intros Hlo Hhi (x & -> & Hx). exists x. split; [reflexivity | lia]. Qed.

Lemma counts_within_mono lo hi lo' hi' i :
  lo' <= lo -> hi <= hi' -> counts_within lo hi i -> counts_within lo' hi' i.
Proof.
  intros Hlo Hhi [(r & Hr & Hb) Hq]. split.
  - exists r. split; [exact Hr | lia].
  - eapply List.Forall_impl; [|exact Hq]. intros a. now apply value_within_mono.
Qed.

Lemma counts_within_latest lo hi i :
  counts_within lo hi i -> exists z, latest i = Int z /\ lo <= z <= hi.
Proof.
  intros [(r & Hr & Hb) Hq]. unfold latest. rewrite Hr. clear Hr.
  revert r Hb. induction Hq as [|a q (x & -> & Hx) _ IH]; intros r Hb; simpl.
  - now exists r.
  - now apply IH.
Qed.

Lemma counts_within_step lo hi i e :
  counts_within lo hi i ->
  counts_within (lo - clicks Decrement [e]) (hi + clicks Increment [e]) (step i e).
Proof.
  intros Hi. destruct e as [c|].
  - destruct Hi as [(r & Hr & Hb) Hq]. split; simpl.
    + exists r. split; [exact Hr|]. destruct c; simpl; lia.
    + apply Forall_app; split.
      * eapply List.Forall_impl; [|exact Hq]. intros a.
        apply value_within_mono; destruct c; simpl; lia.
      * constructor; [|constructor]. rewrite Hr.
        destruct c; simpl; eexists; (split; [reflexivity|]); simpl; lia.
  - destruct (counts_within_latest _ _ _ Hi) as (z & Hz & Hb).
    split; simpl; [|constructor]. exists z. split; [exact Hz | lia].
Qed.

Lemma counts_within_run es lo hi i :
  counts_within lo hi i ->
  counts_within (lo - clicks Decrement es) (hi + clicks Increment es) (run es i).
Proof.
  revert lo hi i; induction es as [|e es IH]; intros lo hi i Hi.
  - simpl. eapply counts_within_mono; [| |exact Hi]; lia.
  - rewrite run_cons.
    eapply counts_within_mono; [| |apply IH, counts_within_step, Hi].
    + destruct e as [[|]|]; simpl; lia.
    + destruct e as [[|]|]; simpl; lia.
Qed.

(** X3. BasicCounter may lose clicks but never invents one: after every
    sequence of events the count is an integer between -M and N, for N
    clicks on "increment" and M on "decrement". *)
Theorem BasicCounter_count_bounds (es : list event) :
  exists z,
    final_count BasicCounter es = Int z
    /\ - clicks Decrement es <= z <= clicks Increment es.
Proof.
  assert (H0 : counts_within 0 0 (mount BasicCounter)).
  { split; [exists 0; split; [reflexivity | lia] | constructor]. }
  destruct (counts_within_latest _ _ _ (counts_within_run es _ _ _ H0))
    as (z & Hz & Hb).
  exists z. split; [exact Hz | lia].
Qed.

(** ** A count that is not a number *)

Lemma NaN_kept v c (captured s : St (component_of v)) :
  shown (component_of v) captured = NaN ->
  shown (component_of v) s = NaN ->
  shown (component_of v) (apply (component_of v) s (onClick (component_of v) c captured))
  = NaN.
Proof.
  destruct v, c; simpl; intros Hc Hs; subst; try reflexivity.
  all: rewrite Hs; reflexivity.
Qed.

(** X4. In every variant a count that is NaN stays NaN: from a render with
    the count NaN, no sequence of clicks and renders shows a number
    again. *)
Theorem NaN_count_is_permanent
    (v : variant) (s : St (component_of v)) (es : list event) :
  shown (component_of v) s = NaN ->
  displayed (run es (Build_instance (component_of v) s [])) = NaN
  /\ displayed (step (run es (Build_instance (component_of v) s [])) Render) = NaN.
Proof.
  intros Hs.
  apply (kept_run (component_of v)
           (fun s => shown (component_of v) s = NaN) (NaN_kept v)
           es (Build_instance (component_of v) s []) Hs).
  constructor.
Qed.

Lemma NaN_count_is_permanent_witness :
  shown DataAttributeCounter
    (basicStateReducer (Int 0) (update (Some "abc"))) = NaN
  /\ displayed (run [Click Increment; Render; Click Increment; Click Decrement; Render]
                  (Build_instance DataAttributeCounter
                     (basicStateReducer (Int 0) (update (Some "abc"))) []))
     = NaN.
Proof.
  split; [reflexivity|].
  exact (proj1 (NaN_count_is_permanent DataAttribute
                  (basicStateReducer (Int 0) (update (Some "abc")))
                  [Click Increment; Render; Click Increment; Click Decrement; Render]
                  eq_refl)).
Defined.

(** ** Renders without clicks *)

Lemma run_renders_mount (C : component) (k : nat) :
  run (repeat Render k) (mount C) = mount C.
Proof. induction k as [|k IH]; [reflexivity|]. simpl repeat. now rewrite run_cons. Qed.

(** X5. In every variant, as long as no control is activated the count
    stays at its initial value 0, however often the component renders. *)
Theorem no_click_count_zero (v : variant) (k : nat) :
  displayed (run (repeat Render k) (mount (component_of v))) = Int 0
  /\ final_count (component_of v) (repeat Render k) = Int 0.
Proof.
  unfold final_count. rewrite run_renders_mount. destruct v; split; reflexivity.
Qed.

(** ** Numerals through [parseInt] *)

Section Numerals.
Import DecimalString.
Implicit Types (d : Decimal.uint) (rest : string).

Lemma append_cons (c : ascii) (s : string) rest :
  String c s ++ rest = String c (s ++ rest).
Proof. reflexivity. Qed.

Lemma append_empty rest : "" ++ rest = rest.
Proof. reflexivity. Qed.

Lemma parseInt_minus s : parseInt (String "-" s) = parse_unsigned (-1) s.
Proof. reflexivity. Qed.

Lemma parseInt_digit_head d rest :
  d <> Decimal.Nil ->
  parseInt (NilEmpty.string_of_uint d ++ rest)
  = parse_unsigned 1 (NilEmpty.string_of_uint d ++ rest).
Proof. destruct d; intros Hd; [congruence | reflexivity ..]. Qed.

Lemma strip_prefix_numeral d rest :
  d <> Decimal.Nil ->
  (d = Decimal.D0 Decimal.Nil -> no_x_head rest) ->
  strip_prefix (NilEmpty.string_of_uint d ++ rest)
  = (10, NilEmpty.string_of_uint d ++ rest).
Proof.
  intros Hd Hx. destruct d as [|d'|d'|d'|d'|d'|d'|d'|d'|d'|d'];
    [congruence | | reflexivity ..].
  destruct d'; try reflexivity.
  specialize (Hx eq_refl). destruct rest as [|c rest']; [reflexivity|].
  destruct Hx as [Hx HX]. simpl.
  destruct c as [[] [] [] [] [] [] [] []]; try reflexivity; congruence.
Qed.

Lemma digit_prefix_numeral d rest :
  no_decimal_head rest ->
  digit_prefix 10 (NilEmpty.string_of_uint d ++ rest) = uint_digits d.
Proof.
  intros Hrest. induction d; cbn [NilEmpty.string_of_uint uint_digits];
    [| rewrite append_cons; cbn [digit_prefix]; rewrite IHd; reflexivity ..].
  rewrite append_empty. destruct rest as [|c rest']; [reflexivity|].
  cbn [digit_prefix]. simpl in Hrest. now rewrite Hrest.
Qed.

Lemma of_uint_acc_fold d (acc : positive) :
  Z.pos (Pos.of_uint_acc d acc)
  = fold_left (fun a x => a * 10 + x) (uint_digits d) (Z.pos acc).
Proof.
  revert acc; induction d; intros acc;
    cbn [Pos.of_uint_acc uint_digits fold_left];
    [reflexivity | rewrite IHd; f_equal; lia ..].
Qed.

Lemma math_int_numeral d : math_int 10 (uint_digits d) = Z.of_N (Pos.of_uint d).
Proof.
  unfold math_int. induction d; cbn [Pos.of_uint uint_digits fold_left];
    [reflexivity | exact IHd | cbn [Z.of_N]; rewrite of_uint_acc_fold; reflexivity ..].
Qed.

Lemma parse_unsigned_numeral sign d rest :
  d <> Decimal.Nil ->
  no_decimal_head rest ->
  (d = Decimal.D0 Decimal.Nil -> no_x_head rest) ->
  parse_unsigned sign (NilEmpty.string_of_uint d ++ rest)
  = Int (sign * Z.of_N (Pos.of_uint d)).
Proof.
  intros Hd Hrest Hx. unfold parse_unsigned.
  rewrite (strip_prefix_numeral d rest Hd Hx), (digit_prefix_numeral d rest Hrest).
  rewrite <- math_int_numeral.
  destruct d; [congruence | reflexivity ..].
Qed.

Lemma string_of_to_uint (p : positive) :
  NilZero.string_of_uint (Pos.to_uint p) = NilEmpty.string_of_uint (Pos.to_uint p).
Proof.
  pose proof (DecimalPos.Unsigned.to_uint_nonnil p) as Hnil.
  now destruct (Pos.to_uint p).
Qed.

(** What [parseInt] reads from the numeral of [z] followed by [rest]. *)
Lemma parseInt_numeral (z : Z) rest :
  no_decimal_head rest ->
  (z = 0 -> no_x_head rest) ->
  parseInt (decimal_numeral z ++ rest) = Int z.
Proof.
  intros Hrest Hx. destruct z as [|p|p]; unfold decimal_numeral;
    cbn [Z.to_int NilZero.string_of_int].
  - change (NilZero.string_of_uint Decimal.zero)
      with (NilEmpty.string_of_uint (Decimal.D0 Decimal.Nil)).
    rewrite parseInt_digit_head by discriminate.
    rewrite parse_unsigned_numeral; [reflexivity | discriminate | exact Hrest | auto].
  - rewrite string_of_to_uint.
    rewrite parseInt_digit_head by apply DecimalPos.Unsigned.to_uint_nonnil.
    rewrite parse_unsigned_numeral.
    + rewrite DecimalPos.Unsigned.of_to. reflexivity.
    + apply DecimalPos.Unsigned.to_uint_nonnil.
    + exact Hrest.
    + intros H0. destruct (DecimalPos.Unsigned.to_uint_nonzero p H0).
  - rewrite string_of_to_uint.
    change (String "-" ?s ++ rest) with (String "-" (s ++ rest)).
    rewrite parseInt_minus, parse_unsigned_numeral.
    + rewrite DecimalPos.Unsigned.of_to. reflexivity.
    + apply DecimalPos.Unsigned.to_uint_nonnil.
    + exact Hrest.
    + intros H0. destruct (DecimalPos.Unsigned.to_uint_nonzero p H0).
Qed.

End Numerals.

(** * The components on doubles *)

(** ** Rounding *)

Section DoubleFacts.
Import Double.

Lemma round_exact (z : Z) :
  - exact_bound <= z <= exact_bound -> round z = Fin z.
Proof.
  intros Hz. unfold round.
  destruct (Z.leb_spec (Z.abs z) exact_bound) as [_|Hbig]; [reflexivity | lia].
Qed.

Lemma add_exact (x y : Z) :
  - exact_bound <= x + y <= exact_bound -> Double.add (Fin x) (Fin y) = Fin (x + y).
Proof. apply round_exact. Qed.

Lemma sub_exact (x y : Z) :
  - exact_bound <= x - y <= exact_bound -> Double.sub (Fin x) (Fin y) = Fin (x - y).
Proof. apply round_exact. Qed.

(** Within 2^53 the exact integers and the doubles agree. *)
Lemma exact_add_agrees (x y : Z) :
  - exact_bound <= x + y <= exact_bound ->
  Double.add (of_num (Int x)) (of_num (Int y)) = of_num (Num.add (Int x) (Int y)).
Proof. apply add_exact. Qed.

Lemma exact_sub_agrees (x y : Z) :
  - exact_bound <= x - y <= exact_bound ->
  Double.sub (of_num (Int x)) (of_num (Int y)) = of_num (Num.sub (Int x) (Int y)).
Proof. apply sub_exact. Qed.

Lemma exact_parseInt_agrees (input : string) :
  (forall z, ParseInt.parseInt input = Int z -> - exact_bound <= z <= exact_bound) ->
  Double.parseInt input = of_num (ParseInt.parseInt input).
Proof.
  intros Hz. unfold Double.parseInt.
  destruct (ParseInt.parseInt input) as [z|]; [|reflexivity].
  apply round_exact, Hz. reflexivity.
Qed.

(** Below 2^1023 in magnitude an integer is rounded to a double, not to an
    infinity. *)
Lemma round_finite (z : Z) :
  Z.abs z < 2 ^ 1023 -> Double.is_integer (round z) = true.
Proof.
  intros Hz. unfold round.
  destruct (Z.leb_spec (Z.abs z) exact_bound) as [_|Hbig]; [reflexivity|].
  set (a := Z.abs z) in *.
  assert (Ha : 0 < a) by (unfold exact_bound in Hbig; lia).
  assert (Hlo : 53 <= Z.log2 a).
  { apply Z.log2_le_pow2; [exact Ha|]. change (2 ^ 53) with exact_bound. lia. }
  assert (Hhi : Z.log2 a < 1023) by (apply Z.log2_lt_pow2; assumption).
  set (e := Z.log2 a - 52).
  assert (He : 1 <= e <= 970) by (unfold e; lia).
  assert (Hpe : 0 < 2 ^ e) by (apply Z.pow_pos_nonneg; lia).
  assert (Hq : 0 <= a / 2 ^ e < 2 ^ 53).
  { split; [apply Z.div_pos; lia|].
    apply Z.div_lt_upper_bound; [exact Hpe|].
    rewrite <- Z.pow_add_r by lia.
    replace (e + 53) with (Z.succ (Z.log2 a)) by (unfold e; lia).
    apply Z.log2_spec, Ha. }
  set (q := a / 2 ^ e) in *.
  set (m := if a mod 2 ^ e <? 2 ^ (e - 1) then q
            else if 2 ^ (e - 1) <? a mod 2 ^ e then q + 1
            else if Z.even q then q else q + 1).
  assert (Hm : 0 <= m <= 2 ^ 53).
  { unfold m.
    repeat match goal with |- context [if ?b then _ else _] => destruct b end; lia. }
  assert (Hmag : m * 2 ^ e <= 2 ^ 53 * 2 ^ 970).
  { apply Z.mul_le_mono_nonneg; try lia. apply Z.pow_le_mono_r; lia. }
  assert (Hlt : 2 ^ 53 * 2 ^ 970 < overflow_bound) by (vm_compute; reflexivity).
  destruct (Z.leb_spec overflow_bound (m * 2 ^ e)) as [Hover|_]; [lia | reflexivity].
Qed.

Lemma parseInt_minus_one : Double.parseInt "-1" = Fin (-1).
Proof. reflexivity. Qed.

Lemma parseInt_one : Double.parseInt "1" = Fin 1.
Proof. reflexivity. Qed.

(** One activation adds the unit of its control to the count, in every
    variant. *)
Lemma transition_add (v : variant) (c : control) (n : number) :
  Double.transition v c n = Double.add n (Fin (delta c)).
Proof. destruct v, c, n; reflexivity. Qed.

Lemma double_reducer_default (s : Double.state) (a : action) :
  type a <> VString "increment" ->
  type a <> VString "decrement" ->
  Double.reducer s a = s.
Proof.
  intros Hi Hd. unfold Double.reducer.
  destruct (type a) as [| |b|n|t]; try reflexivity.
  destruct (String.eqb_spec t "increment") as [->|_]; [congruence|].
  destruct (String.eqb_spec t "decrement") as [->|_]; [congruence|].
  reflexivity.
Qed.

Lemma double_reducer_increment (s : Double.state) (a : action) :
  type a = VString "increment" ->
  Double.reducer s a = {| count := Double.add (count s) (Fin 1) |}.
Proof. intros Hi. unfold Double.reducer. now rewrite Hi. Qed.

Lemma double_reducer_decrement (s : Double.state) (a : action) :
  type a = VString "decrement" ->
  Double.reducer s a = {| count := Double.sub (count s) (Fin 1) |}.
Proof. intros Hd. unfold Double.reducer. now rewrite Hd. Qed.

End DoubleFacts.

(** ** The transition table of the reducer *)

(** The claim C5 states fails where the doubles stop being exact: at the
    count 2^53 the action 'increment' returns the count 2^53, not
    2^53 + 1. *)
Lemma reducer_increment_at_exact_bound :
  Double.reducer {| Double.count := Double.Fin 9007199254740992 |}
    {| type := VString "increment" |}
  = {| Double.count := Double.Fin 9007199254740992 |}
  /\ Double.Fin 9007199254740992 <> Double.Fin (9007199254740992 + 1).
Proof. split; [vm_compute; reflexivity | discriminate]. Qed.

(** C5, amended. On the counts up to 2^53 in magnitude the reducer follows
    the transition table: 'increment' maps a count below 2^53 to count + 1
    and 'decrement' maps a count above -2^53 to count - 1; the initial
    state is [{ count: 0 }], and 'increment' dispatched twice from it gives
    the count 2. *)
Theorem reducer_transition_table (n : Z) :
  - Double.exact_bound <= n <= Double.exact_bound ->
  Double.initialState = {| Double.count := Double.Fin 0 |}
  /\ (n < Double.exact_bound ->
      Double.reducer {| Double.count := Double.Fin n |} {| type := VString "increment" |}
      = {| Double.count := Double.Fin (n + 1) |})
  /\ (- Double.exact_bound < n ->
      Double.reducer {| Double.count := Double.Fin n |} {| type := VString "decrement" |}
      = {| Double.count := Double.Fin (n - 1) |})
  /\ fold_left Double.reducer
       [ {| type := VString "increment" |}; {| type := VString "increment" |} ]
       Double.initialState
     = {| Double.count := Double.Fin 2 |}.
Proof.
  intros Hn. split; [reflexivity|]. split; [|split; [|reflexivity]].
  - intros Hlt. rewrite double_reducer_increment by reflexivity.
    cbn [Double.count]. rewrite add_exact by lia. reflexivity.
  - intros Hgt. rewrite double_reducer_decrement by reflexivity.
    cbn [Double.count]. rewrite sub_exact by lia. reflexivity.
Qed.

Lemma reducer_transition_table_witness :
  - Double.exact_bound <= 41 <= Double.exact_bound
  /\ Double.reducer {| Double.count := Double.Fin 41 |} {| type := VString "increment" |}
     = {| Double.count := Double.Fin 42 |}
  /\ Double.reducer {| Double.count := Double.Fin 41 |} {| type := VString "decrement" |}
     = {| Double.count := Double.Fin 40 |}.
Proof.
  assert (Hn : - Double.exact_bound <= 41 <= Double.exact_bound)
    by (unfold Double.exact_bound; lia).
  destruct (reducer_transition_table 41 Hn) as (_ & Hinc & Hdec & _).
  split; [exact Hn|]. split.
  - apply Hinc. unfold Double.exact_bound; lia.
  - apply Hdec. unfold Double.exact_bound; lia.
Defined.

(** ** Integer counts *)

(** Below 2^1023 in magnitude a sum of two integer-valued doubles is an
    integer-valued double. *)
Lemma add_integer (x y : Z) :
  Z.abs (x + y) < 2 ^ 1023 ->
  Double.is_integer (Double.add (Double.Fin x) (Double.Fin y)) = true.
Proof. apply round_finite. Qed.

(** C6, amended. In every variant, after every sequence of activations of
    its controls and re-renders, the count on display is an integer, and so
    is the count once everything queued is rendered.  The handler of the
    data-attribute variant puts 0 in place of a missing [data-change] only;
    it keeps an integer count an integer when the attribute is missing or
    [parseInt] reads an integer from it, as long as the sum does not
    overflow (it does not below 2^1023 in magnitude). *)
Theorem count_is_integer (v : variant) (es : list event) :
  is_integer (displayed (run es (mount (component_of v)))) = true
  /\ is_integer (final_count (component_of v) es) = true
  /\ Double.parseInt (nullish_or None "0") = Double.Fin 0
  /\ (forall n attr d,
        Double.parseInt (nullish_or attr "0") = Double.Fin d ->
        Z.abs (n + d) < 2 ^ 1023 ->
        Double.is_integer
          (Double.basicStateReducer (Double.Fin n) (Double.update attr)) = true).
Proof.
  destruct (integer_run _ (every_variant_integer_preserving v) es
              (mount (component_of v)) (mount_integer v) (List.Forall_nil _))
    as [Hr Hq].
  split; [exact Hr|]. split; [exact (integer_fold _ _ Hq _ Hr)|].
  split; [reflexivity|].
  intros n attr d Hd Hsum. unfold Double.update, Double.basicStateReducer.
  rewrite Hd. now apply add_integer.
Qed.

Lemma count_is_integer_witness :
  is_integer (displayed (run [Click Decrement; Click Decrement; Render; Click Increment]
                           (mount BasicCounter))) = true
  /\ Double.parseInt (nullish_or (Some "42") "0") = Double.Fin 42
  /\ Z.abs (1 + 42) < 2 ^ 1023
  /\ Double.is_integer
       (Double.basicStateReducer (Double.Fin 1) (Double.update (Some "42"))) = true.
Proof.
  destruct (count_is_integer Basic
              [Click Decrement; Click Decrement; Render; Click Increment])
    as (Hshown & _ & _ & Hupdate).
  assert (Hparse : Double.parseInt (nullish_or (Some "42") "0") = Double.Fin 42)
    by reflexivity.
  assert (Hsum : Z.abs (1 + 42) < 2 ^ 1023) by (vm_compute; reflexivity).
  split; [exact Hshown|]. split; [exact Hparse|]. split; [exact Hsum|].
  exact (Hupdate 1 (Some "42") 42 Hparse Hsum).
Defined.

(** ** The deltas of DataAttributeCounter *)

(** The claim C8 states fails at the count 2^53, which a [data-change]
    can lead to: the handler of the increment control leaves 2^53. *)
Lemma update_increment_at_exact_bound :
  data_change Increment = Some "1"
  /\ Double.basicStateReducer (Double.Fin 9007199254740992)
       (Double.update (data_change Increment))
     = Double.Fin 9007199254740992
  /\ Double.Fin 9007199254740992 <> Double.Fin (9007199254740992 + 1).
Proof.
  split; [reflexivity|]. split; [vm_compute; reflexivity | discriminate].
Qed.

(** C8, amended. In DataAttributeCounter the decrement control carries the
    delta -1 and the increment control the delta +1; the shared handler
    adds the delta it reads to the latest count with the addition of
    doubles, which is count + delta exactly as long as the count and the
    sum stay within 2^53 in magnitude; one activation of "decrement" from
    the initial count 0 gives -1. *)
Theorem DataAttributeCounter_deltas (n : Z) (c : control) :
  - Double.exact_bound <= n <= Double.exact_bound ->
  - Double.exact_bound <= n + delta c <= Double.exact_bound ->
  data_change Decrement = Some "-1"
  /\ data_change Increment = Some "1"
  /\ Double.parseInt "-1" = Double.Fin (-1)
  /\ Double.parseInt "1" = Double.Fin 1
  /\ (forall attr count,
        Double.basicStateReducer count (Double.update attr)
        = Double.add count (Double.parseInt (nullish_or attr "0")))
  /\ (forall count,
        Double.basicStateReducer count (Double.DataAttributeCounter_onClick c)
        = Double.add count (Double.Fin (delta c)))
  /\ Double.basicStateReducer (Double.Fin n) (Double.DataAttributeCounter_onClick c)
     = Double.Fin (n + delta c)
  /\ Double.basicStateReducer (Double.Fin 0)
       (Double.DataAttributeCounter_onClick Decrement)
     = Double.Fin (-1).
Proof.
  intros Hn Hsum.
  assert (Hadd : forall count,
            Double.basicStateReducer count (Double.DataAttributeCounter_onClick c)
            = Double.add count (Double.Fin (delta c))).
  { intros count. exact (transition_add DataAttribute c count). }
  repeat split; try reflexivity; [exact Hadd|].
  rewrite Hadd. now apply add_exact.
Qed.

Lemma DataAttributeCounter_deltas_witness :
  - Double.exact_bound <= 10 <= Double.exact_bound
  /\ - Double.exact_bound <= 10 + delta Decrement <= Double.exact_bound
  /\ Double.basicStateReducer (Double.Fin 10)
       (Double.DataAttributeCounter_onClick Decrement)
     = Double.Fin 9.
Proof.
  assert (Hn : - Double.exact_bound <= 10 <= Double.exact_bound)
    by (unfold Double.exact_bound; lia).
  assert (Hsum : - Double.exact_bound <= 10 + delta Decrement <= Double.exact_bound)
    by (unfold Double.exact_bound; simpl; lia).
  split; [exact Hn|]. split; [exact Hsum|].
  exact (proj1 (proj2 (proj2 (proj2 (proj2 (proj2 (proj2
           (DataAttributeCounter_deltas 10 Decrement Hn Hsum)))))))).
Defined.

(** ** Increment and decrement undo each other *)

(** The claim C9 states fails at the count 2^53: 'increment' leaves 2^53
    and 'decrement' then gives 2^53 - 1. *)
Lemma increment_decrement_at_exact_bound :
  Double.count
    (Double.reducer
       (Double.reducer {| Double.count := Double.Fin 9007199254740992 |}
          {| type := VString "increment" |})
       {| type := VString "decrement" |})
  = Double.Fin 9007199254740991
  /\ Double.Fin 9007199254740991 <> Double.Fin 9007199254740992.
Proof. split; [vm_compute; reflexivity | discriminate]. Qed.

(** C9, amended. In every variant and from every integer count up to 2^53
    in magnitude, an activation of "increment" followed by one of
    "decrement" gives back a count below 2^53, and "decrement" followed by
    "increment" gives back a count above -2^53; so for the reducer,
    [reducer (reducer s increment) decrement] has the count of [s] for
    counts from -2^53 to 2^53 - 1. *)
Theorem increment_decrement_inverse (v : variant) (n : Z) :
  - Double.exact_bound <= n <= Double.exact_bound ->
  (n < Double.exact_bound ->
   Double.transition v Decrement (Double.transition v Increment (Double.Fin n))
   = Double.Fin n)
  /\ (- Double.exact_bound < n ->
      Double.transition v Increment (Double.transition v Decrement (Double.Fin n))
      = Double.Fin n)
  /\ (n < Double.exact_bound ->
      Double.count
        (Double.reducer
           (Double.reducer {| Double.count := Double.Fin n |}
              {| type := VString "increment" |})
           {| type := VString "decrement" |})
      = Double.Fin n)
  /\ (- Double.exact_bound < n ->
      Double.count
        (Double.reducer
           (Double.reducer {| Double.count := Double.Fin n |}
              {| type := VString "decrement" |})
           {| type := VString "increment" |})
      = Double.Fin n).
Proof.
  intros Hn.
  assert (Hup : n < Double.exact_bound ->
            Double.add (Double.add (Double.Fin n) (Double.Fin 1)) (Double.Fin (-1))
            = Double.Fin n).
  { intros Hlt. rewrite add_exact by lia. rewrite add_exact by lia.
    f_equal; lia. }
  assert (Hdown : - Double.exact_bound < n ->
            Double.add (Double.add (Double.Fin n) (Double.Fin (-1))) (Double.Fin 1)
            = Double.Fin n).
  { intros Hgt. rewrite add_exact by lia. rewrite add_exact by lia.
    f_equal; lia. }
  split; [|split; [|split]].
  - intros Hlt. rewrite !transition_add. now apply Hup.
  - intros Hgt. rewrite !transition_add. now apply Hdown.
  - intros Hlt.
    rewrite double_reducer_decrement, double_reducer_increment by reflexivity.
    cbn [Double.count]. rewrite add_exact by lia. rewrite sub_exact by lia.
    f_equal; lia.
  - intros Hgt.
    rewrite double_reducer_increment, double_reducer_decrement by reflexivity.
    cbn [Double.count]. rewrite sub_exact by lia. rewrite add_exact by lia.
    f_equal; lia.
Qed.

Lemma increment_decrement_inverse_witness :
  - Double.exact_bound <= 5 <= Double.exact_bound
  /\ 5 < Double.exact_bound
  /\ Double.transition Basic Decrement
       (Double.transition Basic Increment (Double.Fin 5))
     = Double.Fin 5.
Proof.
  assert (Hn : - Double.exact_bound <= 5 <= Double.exact_bound)
    by (unfold Double.exact_bound; lia).
  assert (Hlt : 5 < Double.exact_bound) by (unfold Double.exact_bound; lia).
  split; [exact Hn|]. split; [exact Hlt|].
  exact (proj1 (increment_decrement_inverse Basic 5 Hn) Hlt).
Defined.

(** ** Clicks rendered one by one *)

(** X1. In every variant, BasicCounter included, when every click is
    rendered before the next one, the count moves from an integer count n
    to n + N - M, for N clicks on "increment" and M on "decrement", as long
    as n - M and n + N are within 2^53 in magnitude. *)
Theorem every_variant_counts_rendered_clicks
    (v : variant) (cs : list control) (n : Z) :
  - Double.exact_bound <= n - clicks Decrement (map Click cs) ->
  n + clicks Increment (map Click cs) <= Double.exact_bound ->
  fold_left (fun k c => Double.transition v c k) cs (Double.Fin n)
  = Double.Fin (n + clicks Increment (map Click cs)
                  - clicks Decrement (map Click cs)).
Proof.
  revert n; induction cs as [|c cs IH]; intros n Hlo Hhi;
    cbn [fold_left map clicks] in *.
  - f_equal; lia.
  - pose proof (clicks_nonneg Increment (map Click cs)) as HI.
    pose proof (clicks_nonneg Decrement (map Click cs)) as HD.
    rewrite transition_add.
    destruct c; cbn [delta] in *.
    + rewrite add_exact by lia. rewrite IH by lia. f_equal; lia.
    + rewrite add_exact by lia. rewrite IH by lia. f_equal; lia.
Qed.

Lemma every_variant_counts_rendered_clicks_witness :
  - Double.exact_bound
    <= 0 - clicks Decrement (map Click [Increment; Increment; Decrement; Increment])
  /\ 0 + clicks Increment (map Click [Increment; Increment; Decrement; Increment])
     <= Double.exact_bound
  /\ fold_left (fun k c => Double.transition Basic c k)
       [Increment; Increment; Decrement; Increment] (Double.Fin 0)
     = Double.Fin 2.
Proof.
  assert (Hlo : - Double.exact_bound
                <= 0 - clicks Decrement
                         (map Click [Increment; Increment; Decrement; Increment]))
    by (unfold Double.exact_bound; simpl; lia).
  assert (Hhi : 0 + clicks Increment
                      (map Click [Increment; Increment; Decrement; Increment])
                <= Double.exact_bound)
    by (unfold Double.exact_bound; simpl; lia).
  split; [exact Hlo|]. split; [exact Hhi|].
  exact (every_variant_counts_rendered_clicks Basic
           [Increment; Increment; Decrement; Increment] 0 Hlo Hhi).
Defined.

(** ** Sequences of actions through the reducer *)

Lemma dispatched_nonneg t acts : 0 <= dispatched t acts.
Proof.
  induction acts as [|a acts IH]; simpl; [lia|].
  destruct (decide (type a = VString t)); lia.
Qed.

(** X6. Dispatching any sequence of actions moves an integer count n by
    the number I of 'increment' actions minus the number D of 'decrement'
    actions in it, as long as n - D and n + I are within 2^53 in magnitude;
    actions with any other [type] leave no trace. *)
Theorem reducer_sequence (acts : list action) (n : Z) :
  - Double.exact_bound <= n - dispatched "decrement" acts ->
  n + dispatched "increment" acts <= Double.exact_bound ->
  Double.count (fold_left Double.reducer acts {| Double.count := Double.Fin n |})
  = Double.Fin (n + dispatched "increment" acts - dispatched "decrement" acts).
Proof.
  revert n; induction acts as [|a acts IH]; intros n Hlo Hhi;
    cbn [fold_left dispatched] in *.
  - cbn [Double.count]. f_equal; lia.
  - pose proof (dispatched_nonneg "increment" acts) as HI.
    pose proof (dispatched_nonneg "decrement" acts) as HD.
    destruct (decide (type a = VString "increment")) as [Hi|Hi].
    { destruct (decide (type a = VString "decrement")) as [Hd|_]; [congruence|].
      rewrite (double_reducer_increment _ a Hi). cbn [Double.count].
      rewrite add_exact by lia. rewrite IH by lia. f_equal; lia. }
    destruct (decide (type a = VString "decrement")) as [Hd|Hd].
    { rewrite (double_reducer_decrement _ a Hd). cbn [Double.count].
      rewrite sub_exact by lia. rewrite IH by lia. f_equal; lia. }
    rewrite (double_reducer_default _ a Hi Hd). rewrite IH by lia. f_equal; lia.
Qed.

Lemma reducer_sequence_witness :
  let acts := [ {| type := VString "increment" |}; {| type := VString "reset" |};
                {| type := VUndefined |}; {| type := VString "increment" |};
                {| type := VString "decrement" |} ] in
  - Double.exact_bound <= 7 - dispatched "decrement" acts
  /\ 7 + dispatched "increment" acts <= Double.exact_bound
  /\ Double.count (fold_left Double.reducer acts {| Double.count := Double.Fin 7 |})
     = Double.Fin 8.
Proof.
  intros acts.
  assert (Hlo : - Double.exact_bound <= 7 - dispatched "decrement" acts)
    by (vm_compute; discriminate).
  assert (Hhi : 7 + dispatched "increment" acts <= Double.exact_bound)
    by (vm_compute; discriminate).
  split; [exact Hlo|]. split; [exact Hhi|].
  exact (reducer_sequence acts 7 Hlo Hhi).
Defined.

(** ** Deltas other than those of the two controls *)

(** X10. The shared handler works for signed integer deltas other than
    the two of the rendered controls: when [data-change] is the decimal
    numeral of z, possibly followed by text that does not start with a
    decimal digit (nor, after a lone 0, with x or X), the handler adds z to
    an integer count n, as long as n, z and n + z are within 2^53 in
    magnitude. *)
Theorem update_reads_leading_integer (z n : Z) (rest : string) :
  no_decimal_head rest ->
  (z = 0 -> no_x_head rest) ->
  - Double.exact_bound <= n <= Double.exact_bound ->
  - Double.exact_bound <= z <= Double.exact_bound ->
  - Double.exact_bound <= n + z <= Double.exact_bound ->
  Double.basicStateReducer (Double.Fin n)
    (Double.update (Some (decimal_numeral z ++ rest)))
  = Double.Fin (n + z).
Proof.
  intros Hrest Hx Hn Hz Hsum.
  unfold Double.update, Double.basicStateReducer, Double.parseInt, nullish_or.
  rewrite (parseInt_numeral z rest Hrest Hx), (round_exact z Hz).
  now apply add_exact.
Qed.

Lemma update_reads_leading_integer_witness :
  no_decimal_head "px"
  /\ (-25 = 0 -> no_x_head "px")
  /\ - Double.exact_bound <= 4 <= Double.exact_bound
  /\ - Double.exact_bound <= -25 <= Double.exact_bound
  /\ - Double.exact_bound <= 4 + -25 <= Double.exact_bound
  /\ Double.basicStateReducer (Double.Fin 4) (Double.update (Some "-25px"))
     = Double.Fin (-21).
Proof.
  assert (Hrest : no_decimal_head "px") by reflexivity.
  assert (Hx : -25 = 0 -> no_x_head "px") by discriminate.
  assert (Hn : - Double.exact_bound <= 4 <= Double.exact_bound)
    by (unfold Double.exact_bound; lia).
  assert (Hz : - Double.exact_bound <= -25 <= Double.exact_bound)
    by (unfold Double.exact_bound; lia).
  assert (Hsum : - Double.exact_bound <= 4 + -25 <= Double.exact_bound)
    by (unfold Double.exact_bound; lia).
  split; [exact Hrest|]. split; [exact Hx|]. split; [exact Hn|].
  split; [exact Hz|]. split; [exact Hsum|].
  exact (update_reads_leading_integer (-25) 4 "px" Hrest Hx Hn Hz Hsum).
Defined.
